(** * Native permission contracts (vm/snative.go)

    A shallow embedding of the seven snative executables of
    [src/vm/snative.go] together with the parts of the packages [common],
    [permission/types] (imported as [ptypes]) and [vm] that they call.

    Layout of the development:
    - [common]  : 32-byte words and their codec;
    - [ptypes]  : permission flags, base permissions, roles;
    - the state accessor ([AppState]) as an in-memory store with a trace of
      the [UpdateAccount] calls;
    - the executables, written in a small state-and-error monad so that each
      definition follows its Go function statement by statement;
    - the properties.

    Go features and how they are rendered:
    - [[]byte] is [list byte], a slice whose capacity is its length.  On
      such a slice, slicing beyond the length panics, which the decoders
      report as [None] and the executables as [Panics].  Go bounds a slice
      expression by the capacity, so a shorter slice with spare capacity
      behaves differently; the properties that depend on the decoders are
      stated for buffers that hold the words the contract reads, which is
      what the decoders' CONTRACT comment demands and where the list and
      the slice agree;
    - [uint64] is [N]; the only arithmetic on flags is bitwise or / and-not,
      which never leaves 64 bits, so no wrap-around is involved;
    - a returned [(output, err)] pair is [Return output] or [Fail err];
    - [PanicSanity] is the outcome [Panics];
    - [*Account] obtained from [GetAccount] is a value: the executables
      mutate it and hand it to [UpdateAccount] before returning, or return
      an error before touching it;
    - [dbg.Printf] produces debugging output only and is left out;
    - the registry [RegisteredSNativeContracts] maps the padded contract
      names to the descriptors that [getSNativeInfo] builds; the properties
      of the executables reach them through [getSNativeInfo] directly. *)

From Stdlib Require Import NArith Strings.Byte.
From stdpp Require Import gmap strings list fin_maps.

#[global] Instance byte_eq_dec : EqDecision byte := Byte.byte_eq_dec.
#[global] Instance byte_countable : Countable byte :=
  inj_countable Byte.to_N Byte.of_N Byte.of_to_N.

(** ** Package [common]: fixed-width words *)

Module common.

(** [type Word256 [32]byte].  A word is a list of bytes; the executables
    only build words of length 32 (see [returnTwoArgs_length]). *)
Abbreviation Word256 := (list byte) (only parsing).

(** Modelled from the spec: [Zero256] is declared in package [common],
    outside src/; the word of 32 zero bytes. *)
Definition Zero256 : Word256 := replicate 32 x00.

(** Modelled from the spec: [LeftPadWord256] is declared in package
    [common], outside src/.  Section 3: words are "left-padded when
    representing shorter binary data (addresses, small integers,
    single-byte booleans)".  The Go function panics when given more than
    32 bytes; the executables only pass one byte. *)
Definition LeftPadWord256 (bz : list byte) : Word256 :=
  replicate (32 - length bz) x00 ++ bz.

(** Modelled from the spec: [Word256.Bytes] is declared in package
    [common], outside src/; the bytes of the word as a slice. *)
Definition Bytes (w : Word256) : list byte := w.

(** Modelled from the spec: [Word256.Postfix] is declared in package
    [common], outside src/; the last [n] bytes of the 32. *)
Definition Postfix (n : nat) (w : Word256) : list byte := drop (32 - n) w.

(** The number a byte string denotes, most significant byte first. *)
Definition big_endian (buf : list byte) : N :=
  fold_left (fun acc b => (acc * 256 + Byte.to_N b)%N) buf 0%N.

(** Modelled from the spec: [Uint64FromWord256] is declared in package
    [common], outside src/.  Small integers sit left-padded in a word
    (section 3), so the [uint64] of a word is the number its last eight
    bytes denote, most significant byte first. *)
Definition Uint64FromWord256 (word : Word256) : N :=
  big_endian (Postfix 8 word).

(** Modelled from the spec: [Word256.IsZero] is declared in package
    [common], outside src/.  Section 4.4: "non-zero word = true", a word
    being zero when each of its bytes is. *)
Definition IsZero (w : Word256) : bool :=
  forallb (fun b => Byte.eqb b x00) w.

End common.
Import common.

(** ** Errors and outcomes *)

(** [type ErrInvalidPermission struct] of [snative.go]: the error of an
    account that lacks the permission to call a native contract.  Its
    [Error] method formats the message "Account %X does not have permission
    snative.%s"; no executable of the file builds a value of this type. *)
Module ErrInvalidPermission.
Record t : Type := {
  Address : Word256;
  SNative : string
}.
End ErrInvalidPermission.

(** The values of Go's [error] that occur in [snative.go]:
    [fmt.Errorf("Unknown account %X", addr)], the value
    [ptypes.ErrInvalidPermission(permN)], and the struct above. *)
Inductive error : Type :=
  | Errorf_Unknown_account (addr : Word256)
  | InvalidPermission (n : N)
  | NoSNativePermission (e : ErrInvalidPermission.t).

#[global] Instance ErrInvalidPermission_eq_dec : EqDecision ErrInvalidPermission.t.
Proof. solve_decision. Defined.

#[global] Instance error_eq_dec : EqDecision error.
Proof. solve_decision. Defined.

(** ** Package [permission/types] *)

Module ptypes.

(** [type PermFlag uint64] *)
Abbreviation PermFlag := N (only parsing).

(** The constants of the package that [snative.go] refers to.  Their
    declarations are outside src/; they are parameters of the development. *)
Class Constants : Type := {
  TopBasePermFlag : PermFlag;
  FirstSNativePermFlag : PermFlag;
  TopSNativePermFlag : PermFlag;
  GlobalPermissionsAddress256 : Word256
}.

(** Section 3: "TopBasePermFlag < FirstSNativePermFlag <= TopSNativePermFlag
    always holds". *)
Definition ranges_ordered `{Constants} : Prop :=
  (TopBasePermFlag < FirstSNativePermFlag)%N /\
  (FirstSNativePermFlag <= TopSNativePermFlag)%N.

(** The flags of the seven native contracts, the cases of the [switch] in
    [getSNativeInfo].  Only their identity matters here, not their
    numeric value. *)
Inductive SNativePerm : Type :=
  | HasBase | SetBase | UnsetBase | SetGlobal | HasRole | AddRole | RmRole.

#[global] Instance SNativePerm_eq_dec : EqDecision SNativePerm.
Proof. solve_decision. Defined.

(** Modelled from the spec: [ErrInvalidPermission] is declared in package
    [permission/types], outside src/.  Section 7: the error "carries the
    offending flag".  Each call in snative.go passes it the flag and
    nothing else. *)
Definition ErrInvalidPermission (n : PermFlag) : error := InvalidPermission n.

(** Modelled from the spec: [BasePermissions] and its methods [Set] and
    [Unset] are declared in package [permission/types], outside src/.
    Section 3: "a bitset plus a parallel 'explicitly set' mask over
    PermFlag values, supporting Set(flag, value) and Unset(flag), each of
    which fails if flag is not a valid PermFlag recognized by the
    base-permission mechanism".  A flag arrives "already shifted"
    (snative.go, line 79), that is as a bit mask; the mask the mechanism
    cannot recognise "even though it passed the range check" (section 4.4)
    is the empty one, 0, which selects no bit.  A failing call leaves the
    permissions as they were (section 4.4: "no partial mutation"). *)
Record BasePermissions : Type := {
  Perms : PermFlag;
  SetBit : PermFlag
}.

(** Modelled from the spec: [BasePermissions.Set], outside src/.  Refuses
    the empty mask; otherwise marks the flag as explicitly set and turns
    it on or off. *)
Definition BasePermissions_Set (p : BasePermissions) (ty : PermFlag) (value : bool)
  : error + BasePermissions :=
  if (ty =? 0)%N then inl (ErrInvalidPermission ty)
  else inr {| Perms := if value then N.lor (Perms p) ty else N.ldiff (Perms p) ty;
              SetBit := N.lor (SetBit p) ty |}.

(** Modelled from the spec: [BasePermissions.Unset], outside src/.
    Refuses the empty mask; otherwise marks the flag as not explicitly
    set. *)
Definition BasePermissions_Unset (p : BasePermissions) (ty : PermFlag)
  : error + BasePermissions :=
  if (ty =? 0)%N then inl (ErrInvalidPermission ty)
  else inr {| Perms := Perms p; SetBit := N.ldiff (SetBit p) ty |}.

(** Modelled from the spec: reading a flag is declared in package
    [permission/types], outside src/.  Section 4.4: the "account has base
    permission set" when the flag is explicitly set ([SetBit]) and on
    ([Perms]). *)
Definition BasePermissions_Has (p : BasePermissions) (ty : PermFlag) : bool :=
  negb (N.land (SetBit p) ty =? 0)%N && negb (N.land (Perms p) ty =? 0)%N.

(** Modelled from the spec: [AccountPermissions] and its methods [HasRole],
    [AddRole] and [RmRole] are declared in package [permission/types],
    outside src/.  Section 3: "a set of role-name strings, supporting
    add/remove with idempotency (adding an already-present role, or
    removing an absent one, is a no-op that reports 'no change')".  A Go
    string is a byte sequence; a method that mutates its receiver returns
    the new receiver next to its boolean. *)
Record AccountPermissions : Type := {
  Base : BasePermissions;
  Roles : gset (list byte)
}.

(** Modelled from the spec: [AccountPermissions.HasRole], outside src/. *)
Definition AccountPermissions_HasRole (aP : AccountPermissions) (role : list byte) : bool :=
  bool_decide (role ∈ Roles aP).

(** Modelled from the spec: [AccountPermissions.AddRole], outside src/;
    "true iff the role was newly added" (section 4.4). *)
Definition AccountPermissions_AddRole (aP : AccountPermissions) (role : list byte)
  : bool * AccountPermissions :=
  if bool_decide (role ∈ Roles aP) then (false, aP)
  else (true, {| Base := Base aP; Roles := Roles aP ∪ {[ role ]} |}).

(** Modelled from the spec: [AccountPermissions.RmRole], outside src/;
    "true iff the role was actually removed" (section 4.4). *)
Definition AccountPermissions_RmRole (aP : AccountPermissions) (role : list byte)
  : bool * AccountPermissions :=
  if bool_decide (role ∈ Roles aP)
  then (true, {| Base := Base aP; Roles := Roles aP ∖ {[ role ]} |})
  else (false, aP).

End ptypes.

(** ** Package [vm]: accounts and the state accessor *)

(** Modelled from the spec: [Account] is declared in package [vm], outside
    src/.  Section 3: an account is "identified by a fixed-width address"
    and owns its [Permissions]; the engine "only reads and rewrites their
    Permissions", so no other field is represented. *)
Record Account : Type := {
  Address : Word256;
  Permissions : ptypes.AccountPermissions
}.

(** Modelled from the spec: the [AppState] interface is declared in package
    [vm], outside src/.  Section 6: "GetAccount(address) -> Account | absent;
    UpdateAccount(Account) -> void (assumed to always succeed once reached)".
    The store is a finite map from addresses to accounts; [updated] records
    the arguments of the [UpdateAccount] calls in order, so that persist
    calls can be counted. *)
Record AppState : Type := {
  accounts : gmap (list byte) Account;
  updated : list Account
}.

(** Modelled from the spec: [AppState.GetAccount], outside src/; the account
    stored at the address, if any. *)
Definition GetAccount (appState : AppState) (addr : Word256) : option Account :=
  accounts appState !! addr.

(** Modelled from the spec: [AppState.UpdateAccount], outside src/; stores
    the account under its own address and is recorded in the trace. *)
Definition UpdateAccount (appState : AppState) (account : Account) : AppState :=
  {| accounts := <[ Address account := account ]> (accounts appState);
     updated := updated appState ++ [account] |}.

(** Every account is stored under its own address. *)
Definition wf_state (appState : AppState) : Prop :=
  forall addr acc, GetAccount appState addr = Some acc -> Address acc = addr.

(** ** Outcomes and the monad of the executables *)

Inductive outcome (A : Type) : Type :=
  | Return (a : A)
  | Fail (err : error)
  | Panics (msg : string).
Arguments Return {A} a.
Arguments Fail {A} err.
Arguments Panics {A} msg.

Definition is_Return {A} (o : outcome A) : bool :=
  match o with Return _ => true | _ => false end.

(** A computation reads and updates the application state and ends in an
    outcome; after [Fail] or [Panics] the rest is skipped. *)
Definition M (A : Type) : Type := AppState -> outcome A * AppState.

Definition ret {A} (a : A) : M A := fun s => (Return a, s).
Definition fail {A} (e : error) : M A := fun s => (Fail e, s).
Definition PanicSanity {A} (msg : string) : M A := fun s => (Panics msg, s).

Definition bind {A B} (m : M A) (k : A -> M B) : M B :=
  fun s =>
    match m s with
    | (Return a, s') => k a s'
    | (Fail e, s') => (Fail e, s')
    | (Panics msg, s') => (Panics msg, s')
    end.

Notation "x <- m ;; k" := (bind m (fun x => k))
  (at level 100, m at next level, right associativity).
Notation "m ;;; k" := (bind m (fun _ => k))
  (at level 100, right associativity).

Definition getAccount (addr : Word256) : M (option Account) :=
  fun s => (Return (GetAccount s addr), s).

Definition updateAccount (account : Account) : M unit :=
  fun s => (Return tt, UpdateAccount s account).

(** A Go value-or-panic, and an [(x, err)] result, inside the monad. *)
Definition orPanic {A} (o : option A) : M A :=
  match o with
  | Some a => ret a
  | None => PanicSanity "runtime error: slice bounds out of range"
  end.

Definition orFail {A} (r : error + A) : M A :=
  match r with
  | inr a => ret a
  | inl e => fail e
  end.

(** ** Package [vm]: the native contracts of [snative.go] *)

(** [type SNativeContract func(appState AppState, input []byte)
    (output []byte, err error)]; the final state is returned as well. *)
Definition SNativeContract : Type :=
  AppState -> list byte -> outcome (list byte) * AppState.

Record snativeInfo : Type := {
  PermFlag : ptypes.SNativePerm;
  NArgs : nat;
  ArgsError : string;
  Executable : SNativeContract
}.

(** CONTRACT: length has already been checked.  On a buffer of at least 64
    bytes the two words are its first 64 bytes.  [None] stands for the
    panic of slicing [args[:32]] and [args[32:64]] on a slice whose backing
    array ends before byte 64; the list has no spare capacity. *)
Definition returnTwoArgs (args : list byte) : option (Word256 * Word256) :=
  if decide (64 <= length args)
  then Some (take 32 args, take 32 (drop 32 args))
  else None.

(** CONTRACT: length has already been checked.  As [returnTwoArgs], for the
    first 96 bytes. *)
Definition returnThreeArgs (args : list byte) : option (Word256 * Word256 * Word256) :=
  if decide (96 <= length args)
  then Some (take 32 args, take 32 (drop 32 args), take 32 (drop 64 args))
  else None.

(** Modelled from the spec: [HasPermission] is declared in package [vm],
    outside src/.  Section 4.4 gives the result of HasBase as "account has
    base permission set".  Section 3: the base permissions carry an
    "explicitly set" mask, and the global permissions account "holds
    chain-wide default values".  So an account that has explicitly set the
    flag has the permission when the flag is on; for an account that has
    not, the default applies: the value the flag has in the global
    permissions account, which is looked up in the [appState] that
    [hasBasePerm] passes.  A flag the global account has not set, or a
    missing global account, gives no permission. *)
Definition HasPermission `{consts : ptypes.Constants}
    (appState : AppState) (acc : Account) (perm : ptypes.PermFlag) : bool :=
  let base := ptypes.Base (Permissions acc) in
  if negb (N.land (ptypes.SetBit base) perm =? 0)%N
  then negb (N.land (ptypes.Perms base) perm =? 0)%N
  else
    match GetAccount appState ptypes.GlobalPermissionsAddress256 with
    | Some globalAcc =>
        ptypes.BasePermissions_Has (ptypes.Base (Permissions globalAcc)) perm
    | None => false
    end.

(** The account with its base permissions, or all its permissions, replaced:
    the effect of a mutating method called through [vmAcc.Permissions]. *)
Definition with_Base (acc : Account) (b : ptypes.BasePermissions) : Account :=
  {| Address := Address acc;
     Permissions := {| ptypes.Base := b; ptypes.Roles := ptypes.Roles (Permissions acc) |} |}.

Definition with_Permissions (acc : Account) (aP : ptypes.AccountPermissions) : Account :=
  {| Address := Address acc; Permissions := aP |}.

Section SNative.

Context {consts : ptypes.Constants}.

(** Checks if a permission flag is valid (a known base chain or snative
    permission). *)
Definition ValidPermN (n : ptypes.PermFlag) : bool :=
  if (ptypes.TopBasePermFlag <? n)%N && (n <? ptypes.FirstSNativePermFlag)%N then false
  else if (ptypes.TopSNativePermFlag <? n)%N then false
  else true.

Definition hasBasePerm : SNativeContract := fun appState args =>
  (ab <- orPanic (returnTwoArgs args) ;;
   let '(addr, permNum) := ab in
   vmAcc <- getAccount addr ;;
   match vmAcc with
   | None => fail (Errorf_Unknown_account addr)
   | Some vmAcc =>
     let permN := Uint64FromWord256 permNum in
     if negb (ValidPermN permN) then fail (ptypes.ErrInvalidPermission permN)
     else
       let permInt := if HasPermission appState vmAcc permN then x01 else x00 in
       ret (Bytes (LeftPadWord256 [permInt]))
   end) appState.

Definition setBasePerm : SNativeContract := fun appState args =>
  (abc <- orPanic (returnThreeArgs args) ;;
   let '(addr, permNum, perm) := abc in
   vmAcc <- getAccount addr ;;
   match vmAcc with
   | None => fail (Errorf_Unknown_account addr)
   | Some vmAcc =>
     let permN := Uint64FromWord256 permNum in
     if negb (ValidPermN permN) then fail (ptypes.ErrInvalidPermission permN)
     else
       let permV := negb (IsZero perm) in
       base <- orFail (ptypes.BasePermissions_Set (ptypes.Base (Permissions vmAcc)) permN permV) ;;
       updateAccount (with_Base vmAcc base) ;;;
       ret (Bytes perm)
   end) appState.

Definition unsetBasePerm : SNativeContract := fun appState args =>
  (ab <- orPanic (returnTwoArgs args) ;;
   let '(addr, permNum) := ab in
   vmAcc <- getAccount addr ;;
   match vmAcc with
   | None => fail (Errorf_Unknown_account addr)
   | Some vmAcc =>
     let permN := Uint64FromWord256 permNum in
     if negb (ValidPermN permN) then fail (ptypes.ErrInvalidPermission permN)
     else
       base <- orFail (ptypes.BasePermissions_Unset (ptypes.Base (Permissions vmAcc)) permN) ;;
       updateAccount (with_Base vmAcc base) ;;;
       ret (Bytes permNum)
   end) appState.

Definition setGlobalPerm : SNativeContract := fun appState args =>
  (ab <- orPanic (returnTwoArgs args) ;;
   let '(permNum, perm) := ab in
   vmAcc <- getAccount ptypes.GlobalPermissionsAddress256 ;;
   match vmAcc with
   | None => PanicSanity "cant find the global permissions account"
   | Some vmAcc =>
     let permN := Uint64FromWord256 permNum in
     if negb (ValidPermN permN) then fail (ptypes.ErrInvalidPermission permN)
     else
       let permV := negb (IsZero perm) in
       base <- orFail (ptypes.BasePermissions_Set (ptypes.Base (Permissions vmAcc)) permN permV) ;;
       updateAccount (with_Base vmAcc base) ;;;
       ret (Bytes perm)
   end) appState.

Definition hasRole : SNativeContract := fun appState args =>
  (ab <- orPanic (returnTwoArgs args) ;;
   let '(addr, role) := ab in
   vmAcc <- getAccount addr ;;
   match vmAcc with
   | None => fail (Errorf_Unknown_account addr)
   | Some vmAcc =>
     let roleS := Bytes role in
     let permInt :=
       if ptypes.AccountPermissions_HasRole (Permissions vmAcc) roleS then x01 else x00 in
     ret (Bytes (LeftPadWord256 [permInt]))
   end) appState.

Definition addRole : SNativeContract := fun appState args =>
  (ab <- orPanic (returnTwoArgs args) ;;
   let '(addr, role) := ab in
   vmAcc <- getAccount addr ;;
   match vmAcc with
   | None => fail (Errorf_Unknown_account addr)
   | Some vmAcc =>
     let roleS := Bytes role in
     let '(added, aP) := ptypes.AccountPermissions_AddRole (Permissions vmAcc) roleS in
     let permInt := if added then x01 else x00 in
     updateAccount (with_Permissions vmAcc aP) ;;;
     ret (Bytes (LeftPadWord256 [permInt]))
   end) appState.

Definition rmRole : SNativeContract := fun appState args =>
  (ab <- orPanic (returnTwoArgs args) ;;
   let '(addr, role) := ab in
   vmAcc <- getAccount addr ;;
   match vmAcc with
   | None => fail (Errorf_Unknown_account addr)
   | Some vmAcc =>
     let roleS := Bytes role in
     let '(removed, aP) := ptypes.AccountPermissions_RmRole (Permissions vmAcc) roleS in
     let permInt := if removed then x01 else x00 in
     updateAccount (with_Permissions vmAcc aP) ;;;
     ret (Bytes (LeftPadWord256 [permInt]))
   end) appState.

(** Sets the number of arguments, a friendly error message, and the snative
    function ("executable").  The lookup of the flag from the contract's
    name ([ptypes.SNativeStringToPermFlag]) is outside src/; the function
    is given the flag. *)
Definition getSNativeInfo (permFlag : ptypes.SNativePerm) : snativeInfo :=
  match permFlag with
  | ptypes.HasBase =>
      Build_snativeInfo permFlag 2
        "hasBase() takes two arguments (address, permFlag)" hasBasePerm
  | ptypes.SetBase =>
      Build_snativeInfo permFlag 3
        "setBase() takes three arguments (address, permFlag, permission value)" setBasePerm
  | ptypes.UnsetBase =>
      Build_snativeInfo permFlag 2
        "unsetBase() takes two arguments (address, permFlag)" unsetBasePerm
  | ptypes.SetGlobal =>
      Build_snativeInfo permFlag 2
        "setGlobal() takes two arguments (permFlag, permission value)" setGlobalPerm
  | ptypes.HasRole =>
      Build_snativeInfo permFlag 2
        "hasRole() takes two arguments (address, role)" hasRole
  | ptypes.AddRole =>
      Build_snativeInfo permFlag 2
        "addRole() takes two arguments (address, role)" addRole
  | ptypes.RmRole =>
      Build_snativeInfo permFlag 2
        "rmRole() takes two arguments (address, role)" rmRole
  end.

End SNative.

(** ** A concrete configuration

    Constants, accounts and a store on which the executables can be run.
    The base flags occupy the low bits and the snative flags start at bit
    32; the global permissions account sits at the zero address. *)

Definition sample_constants : ptypes.Constants := {|
  ptypes.TopBasePermFlag := 64;
  ptypes.FirstSNativePermFlag := 2 ^ 32;
  ptypes.TopSNativePermFlag := 2 ^ 38;
  ptypes.GlobalPermissionsAddress256 := Zero256
|}.

Definition blank_account (addr : Word256) : Account := {|
  Address := addr;
  Permissions := {| ptypes.Base := {| ptypes.Perms := 0; ptypes.SetBit := 0 |};
                    ptypes.Roles := ∅ |}
|}.

Definition addrAA : Word256 := replicate 32 xaa.
Definition addrBB : Word256 := replicate 32 xbb.
Definition addrCC : Word256 := replicate 32 xcc.

(** The global account and the accounts [0xAA..AA] and [0xBB..BB], none with
    a permission or a role; [0xCC..CC] has no account. *)
Definition sample_state : AppState := {|
  accounts := <[ addrAA := blank_account addrAA ]>
              (<[ addrBB := blank_account addrBB ]>
              (<[ Zero256 := blank_account Zero256 ]> ∅));
  updated := []
|}.

(** The word holding one small number. *)
Definition word_of_byte (b : byte) : Word256 := LeftPadWord256 [b].

(** The role name "auditor", as the 32 bytes of a word. *)
Definition role_auditor : Word256 :=
  [x61; x75; x64; x69; x74; x6f; x72] ++ replicate 25 x00.

(** The encoding of a boolean result. *)
Definition bool_word (b : bool) : list byte :=
  replicate 31 x00 ++ [if b then x01 else x00].

(** ** What a call validates

    The word an executable reads as the account address, the word it reads
    as the permission flag (if it takes one), and the validation of
    section 4.4: the account exists and the flag is in range. *)

Section Validation.

Context {consts : ptypes.Constants}.

Definition addr_arg (c : ptypes.SNativePerm) (args : list byte) : Word256 :=
  match c with
  | ptypes.SetGlobal => ptypes.GlobalPermissionsAddress256
  | _ => take 32 args
  end.

Definition flag_arg (c : ptypes.SNativePerm) (args : list byte) : option Word256 :=
  match c with
  | ptypes.HasBase | ptypes.SetBase | ptypes.UnsetBase => Some (take 32 (drop 32 args))
  | ptypes.SetGlobal => Some (take 32 args)
  | _ => None
  end.

Definition unknown_account (c : ptypes.SNativePerm) (appState : AppState)
    (args : list byte) : bool :=
  bool_decide (GetAccount appState (addr_arg c args) = None).

Definition invalid_flag (c : ptypes.SNativePerm) (args : list byte) : bool :=
  match flag_arg c args with
  | Some w => negb (ValidPermN (Uint64FromWord256 w))
  | None => false
  end.

Definition run (c : ptypes.SNativePerm) : SNativeContract :=
  Executable (getSNativeInfo c).

(** The executables that take a flag word. *)
Definition takes_flag (c : ptypes.SNativePerm) : bool :=
  match c with
  | ptypes.HasBase | ptypes.SetBase | ptypes.UnsetBase | ptypes.SetGlobal => true
  | _ => false
  end.


(** The value word of SetBase and SetGlobal. *)
Definition value_arg (c : ptypes.SNativePerm) (args : list byte) : Word256 :=
  match c with
  | ptypes.SetBase => take 32 (drop 64 args)
  | _ => take 32 (drop 32 args)
  end.

(** A flag is rejected when [ValidPermN] refuses it, or when the call goes
    on to [Set] or [Unset] and the base permissions refuse it. *)
Definition rejects_flag (c : ptypes.SNativePerm) (n : ptypes.PermFlag) : bool :=
  negb (ValidPermN n)
  || (match c with
      | ptypes.SetBase | ptypes.UnsetBase | ptypes.SetGlobal => (n =? 0)%N
      | _ => false
      end).

(** The boolean an executable with a boolean result is to report, given
    the account it found: the account has the base permission; the account
    has the role; the role was newly added; the role was removed. *)
Definition boolean_answer (c : ptypes.SNativePerm) (appState : AppState)
    (args : list byte) : option bool :=
  match GetAccount appState (take 32 args) with
  | None => None
  | Some acc =>
    let word2 := take 32 (drop 32 args) in
    match c with
    | ptypes.HasBase => Some (HasPermission appState acc (Uint64FromWord256 word2))
    | ptypes.HasRole => Some (bool_decide (word2 ∈ ptypes.Roles (Permissions acc)))
    | ptypes.AddRole => Some (bool_decide (word2 ∉ ptypes.Roles (Permissions acc)))
    | ptypes.RmRole => Some (bool_decide (word2 ∈ ptypes.Roles (Permissions acc)))
    | _ => None
    end
  end.

End Validation.

(** ** Which executables write

    The executables whose body calls [UpdateAccount]. *)
Definition mutates (c : ptypes.SNativePerm) : bool :=
  match c with
  | ptypes.HasBase | ptypes.HasRole => false
  | _ => true
  end.

(** ** The registry of [snative.go] *)

(** Modelled from the spec: [SNativeStringToPermFlag] is declared in package
    [permission/types], outside src/.  Section 4.2: each of the seven
    contract names resolves to its flag, and a name that "does not map to a
    known flag" is an error. *)
Definition SNativeStringToPermFlag (permString : string) : option ptypes.SNativePerm :=
  if String.eqb permString "HasBase" then Some ptypes.HasBase
  else if String.eqb permString "SetBase" then Some ptypes.SetBase
  else if String.eqb permString "UnsetBase" then Some ptypes.UnsetBase
  else if String.eqb permString "SetGlobal" then Some ptypes.SetGlobal
  else if String.eqb permString "HasRole" then Some ptypes.HasRole
  else if String.eqb permString "AddRole" then Some ptypes.AddRole
  else if String.eqb permString "RmRole" then Some ptypes.RmRole
  else None.

(** The name under which [registerSNativeContracts] registers a contract. *)
Definition SNativeName (c : ptypes.SNativePerm) : string :=
  match c with
  | ptypes.HasBase => "HasBase"
  | ptypes.SetBase => "SetBase"
  | ptypes.UnsetBase => "UnsetBase"
  | ptypes.SetGlobal => "SetGlobal"
  | ptypes.HasRole => "HasRole"
  | ptypes.AddRole => "AddRole"
  | ptypes.RmRole => "RmRole"
  end.

(** [LeftPadWord256([]byte(name))]: the key of a contract in the registry. *)
Definition name_word (name : string) : Word256 :=
  LeftPadWord256 (String.list_byte_of_string name).

Section Registry.

Context {consts : ptypes.Constants}.

(** [getSNativeInfo(permString)] as the source calls it, from the name; a
    name without a flag panics ([None]). *)
Definition getSNativeInfo_named (permString : string) : option snativeInfo :=
  getSNativeInfo <$> SNativeStringToPermFlag permString.

(** One line of [registerSNativeContracts]:
    [RegisteredSNativeContracts[LeftPadWord256([]byte(name))] =
    getSNativeInfo(name)]. *)
Definition register (name : string) (contracts : gmap (list byte) snativeInfo)
  : option (gmap (list byte) snativeInfo) :=
  si ← getSNativeInfo_named name;
  Some (<[ name_word name := si ]> contracts).

Definition registerSNativeContracts (contracts : gmap (list byte) snativeInfo)
  : option (gmap (list byte) snativeInfo) :=
  m ← register "HasBase" contracts;
  m ← register "SetBase" m;
  m ← register "UnsetBase" m;
  m ← register "SetGlobal" m;
  m ← register "HasRole" m;
  m ← register "AddRole" m;
  register "RmRole" m.

(** [var RegisteredSNativeContracts = make(map[Word256]*snativeInfo)], after
    [registerSNativeContracts] has run. *)
Definition RegisteredSNativeContracts : option (gmap (list byte) snativeInfo) :=
  registerSNativeContracts ∅.

End Registry.

(** ** The message of [ErrInvalidPermission]

    [fmt.Sprintf] with the verb [%X] writes a byte slice as two upper-case
    hexadecimal digits per byte, and with [%s] a string as it is.  A Go
    string is its bytes. *)

Definition hex_digit (n : N) : byte :=
  nth (N.to_nat n) (String.list_byte_of_string "0123456789ABCDEF") x30.

Definition Sprintf_X (bz : list byte) : list byte :=
  flat_map (fun b => [hex_digit (Byte.to_N b / 16); hex_digit (Byte.to_N b mod 16)]) bz.

(** [func (e ErrInvalidPermission) Error() string] *)
Definition ErrInvalidPermission_Error (e : ErrInvalidPermission.t) : list byte :=
  String.list_byte_of_string "Account "
  ++ Sprintf_X (Postfix 20 (ErrInvalidPermission.Address e))
  ++ String.list_byte_of_string " does not have permission snative."
  ++ String.list_byte_of_string (ErrInvalidPermission.SNative e).

(** * Properties *)

(** ** Decoding *)

Lemma returnTwoArgs_Some args a b :
  returnTwoArgs args = Some (a, b) ->
  64 <= length args /\ a = take 32 args /\ b = take 32 (drop 32 args).
Proof.
  unfold returnTwoArgs. case_decide; [|discriminate].
  intros [= <- <-]. auto.
Qed.

Lemma returnThreeArgs_Some args a b c :
  returnThreeArgs args = Some (a, b, c) ->
  96 <= length args /\ a = take 32 args /\ b = take 32 (drop 32 args)
  /\ c = take 32 (drop 64 args).
Proof.
  unfold returnThreeArgs. case_decide; [|discriminate].
  intros [= <- <- <-]. auto.
Qed.

Lemma returnTwoArgs_length args a b :
  returnTwoArgs args = Some (a, b) -> length a = 32 /\ length b = 32.
Proof.
  intros (Hl & -> & ->)%returnTwoArgs_Some.
  rewrite !length_take, length_drop. lia.
Qed.

Lemma returnTwoArgs_app (a b : list byte) :
  length a = 32 -> length b = 32 -> returnTwoArgs (a ++ b) = Some (a, b).
Proof.
  intros Ha Hb. unfold returnTwoArgs.
  case_decide as Hl; [|rewrite length_app in Hl; lia].
  rewrite take_app_length' by done.
  rewrite drop_app_length' by done.
  rewrite take_ge by lia. done.
Qed.

(** Unfolds an executable down to the case analysis of its Go body. *)
Ltac unfold_exec :=
  unfold run, getSNativeInfo, Executable,
    hasBasePerm, setBasePerm, unsetBasePerm, setGlobalPerm, hasRole, addRole, rmRole,
    bind, orPanic, orFail, getAccount, updateAccount, ret, fail, PanicSanity in *.

(** ** The flag ranges *)

Section FlagRange.

Context {consts : ptypes.Constants}.

(** C2.  Under the ordering of the constants stated in section 3,
    [ValidPermN n] is true exactly when [n] lies in
    [[0, TopBasePermFlag]] or in
    [[FirstSNativePermFlag, TopSNativePermFlag]]; every [n] strictly
    between [TopBasePermFlag] and [FirstSNativePermFlag], and every [n]
    above [TopSNativePermFlag], is rejected. *)
Theorem ValidPermN_ranges (n : ptypes.PermFlag) :
  ptypes.ranges_ordered ->
  (ValidPermN n = true <->
     (0 <= n <= ptypes.TopBasePermFlag)%N \/
     (ptypes.FirstSNativePermFlag <= n <= ptypes.TopSNativePermFlag)%N)
  /\ ((ptypes.TopBasePermFlag < n < ptypes.FirstSNativePermFlag)%N ->
      ValidPermN n = false)
  /\ ((ptypes.TopSNativePermFlag < n)%N -> ValidPermN n = false).
Proof.
  intros [Hlt Hle]. unfold ValidPermN.
  destruct (N.ltb_spec ptypes.TopBasePermFlag n),
           (N.ltb_spec n ptypes.FirstSNativePermFlag),
           (N.ltb_spec ptypes.TopSNativePermFlag n); simpl;
    (split; [split; [try discriminate; intros _; lia | intros [?|?]; try reflexivity; lia]
            | split; intros ?; try reflexivity; lia]).
Qed.

End FlagRange.

Lemma ValidPermN_ranges_witness :
  ptypes.ranges_ordered (H := sample_constants) /\
  (ValidPermN (consts := sample_constants) 65 = true <->
     (0 <= 65 <= 64)%N \/ (2 ^ 32 <= 65 <= 2 ^ 38)%N).
Proof.
  assert (Hord : ptypes.ranges_ordered (H := sample_constants))
    by (split; vm_compute; [reflexivity | discriminate]).
  split; [exact Hord|].
  exact (proj1 (ValidPermN_ranges (consts := sample_constants) 65 Hord)).
Defined.

(** ** Failing calls *)

Section Failure.

Context {consts : ptypes.Constants}.

(** A call that does not return normally hands back the state it got. *)
Lemma failure_keeps_state c s args :
  is_Return (fst (run c s args)) = false -> snd (run c s args) = s.
Proof.
  destruct c; unfold_exec; repeat (case_match; simpl in *; simplify_eq; try done).
Qed.

(** An unknown account or an out-of-range flag makes the call fail. *)
Lemma validation_failure_fails c s args :
  unknown_account c s args || invalid_flag c args = true ->
  is_Return (fst (run c s args)) = false.
Proof.
  unfold unknown_account, invalid_flag, GetAccount.
  intros H.
  destruct c; simpl in H; unfold_exec; unfold GetAccount, returnTwoArgs, returnThreeArgs;
    repeat (case_match; simpl in *; simplify_eq; try done).
  all: try (rewrite bool_decide_eq_true in H; congruence).
  all: try (apply orb_true_iff in H as [H|H]; [rewrite bool_decide_eq_true in H; congruence|]).
  all: try (rewrite negb_true_iff in *; congruence).
Qed.

(** C1.  For each of the seven executables: when validation fails (the
    address resolves to no account, or the flag is out of range) the call
    does not return normally; and a call that does not return normally
    made no [UpdateAccount] call and leaves every account as [GetAccount]
    showed it before.  Hence a write is only made by a call whose whole
    validation chain succeeded. *)
Theorem no_mutation_on_failure c s args :
  (unknown_account c s args || invalid_flag c args = true ->
   is_Return (fst (run c s args)) = false)
  /\ (is_Return (fst (run c s args)) = false ->
      updated (snd (run c s args)) = updated s
      /\ forall addr, GetAccount (snd (run c s args)) addr = GetAccount s addr).
Proof.
  split; [apply validation_failure_fails|].
  intros H. rewrite (failure_keeps_state _ _ _ H). done.
Qed.

(** C10.  In HasBase, SetBase and UnsetBase the account is looked up before
    the flag is examined: when the address has no account the call fails
    with the unknown-account error naming that address, whatever the flag
    word holds, an out-of-range flag included, and the state is as before. *)
Theorem unknown_account_before_flag_check c s args :
  c = ptypes.HasBase \/ c = ptypes.SetBase \/ c = ptypes.UnsetBase ->
  NArgs (getSNativeInfo c) * 32 <= length args ->
  GetAccount s (take 32 args) = None ->
  run c s args = (Fail (Errorf_Unknown_account (take 32 args)), s).
Proof.
  unfold GetAccount.
  intros Hc Hlen Hnone.
  destruct Hc as [-> | [-> | ->]]; simpl in Hlen; unfold_exec;
    unfold GetAccount, returnTwoArgs, returnThreeArgs;
    (case_decide; [|lia]); simpl; rewrite Hnone; reflexivity.
Qed.

End Failure.

(** ** Persisting role updates *)

Section RolePersist.

Context {consts : ptypes.Constants}.

(** C7.  On a buffer that holds their two words, AddRole and RmRole return
    normally exactly when the address has an account; and whenever they
    return normally they made exactly one [UpdateAccount] call, for that
    account, whether or not the role set changed. *)
Theorem role_update_always_persists c s args :
  c = ptypes.AddRole \/ c = ptypes.RmRole ->
  64 <= length args ->
  (is_Return (fst (run c s args)) = true <-> is_Some (GetAccount s (take 32 args)))
  /\ (is_Return (fst (run c s args)) = true ->
      exists acc acc',
        GetAccount s (take 32 args) = Some acc
        /\ Address acc' = Address acc
        /\ snd (run c s args) = UpdateAccount s acc'
        /\ updated (snd (run c s args)) = updated s ++ [acc']).
Proof.
  intros Hc Hlen.
  destruct Hc as [-> | ->]; unfold_exec; unfold GetAccount, returnTwoArgs;
    rewrite decide_True by done; simpl;
    (destruct (accounts s !! take 32 args) as [acc|] eqn:Hacc; simpl;
      [|split; [split; [done | intros [? ?]; done] | done]]).
  - destruct (ptypes.AccountPermissions_AddRole _ _) as [added aP]; simpl.
    split; [split; [eauto | done]|]. intros _.
    exists acc, (with_Permissions acc aP). done.
  - destruct (ptypes.AccountPermissions_RmRole _ _) as [removed aP]; simpl.
    split; [split; [eauto | done]|]. intros _.
    exists acc, (with_Permissions acc aP). done.
Qed.

End RolePersist.

(** ** Base permissions: bits and words *)

Lemma land_lor_same_nonzero (a f : N) : f <> 0%N -> N.land (N.lor a f) f <> 0%N.
Proof.
  intros Hf. rewrite N.land_lor_distr_l, N.land_diag.
  intros [_ ?]%N.lor_eq_0_iff. done.
Qed.

(** After a successful [Set], the flag reads as the value that was set. *)
Lemma Has_after_Set p ty value base :
  ptypes.BasePermissions_Set p ty value = inr base ->
  ptypes.BasePermissions_Has base ty = value.
Proof.
  unfold ptypes.BasePermissions_Set, ptypes.BasePermissions_Has.
  destruct (N.eqb_spec ty 0) as [|Hty]; [discriminate|].
  intros [= <-]; simpl.
  rewrite (proj2 (N.eqb_neq _ _) (land_lor_same_nonzero _ _ Hty)); simpl.
  destruct value.
  - by rewrite (proj2 (N.eqb_neq _ _) (land_lor_same_nonzero _ _ Hty)).
  - by rewrite N.land_ldiff.
Qed.

(** After a successful [Set] the account has set the flag explicitly, so
    [HasPermission] reads the value that was set, whatever the defaults. *)
Lemma HasPermission_after_Set `{consts : ptypes.Constants}
    s acc p ty value base :
  ptypes.BasePermissions_Set p ty value = inr base ->
  HasPermission s (with_Base acc base) ty = value.
Proof.
  unfold ptypes.BasePermissions_Set, HasPermission.
  destruct (N.eqb_spec ty 0) as [|Hty]; [discriminate|].
  intros [= <-]; simpl.
  rewrite (proj2 (N.eqb_neq _ _) (land_lor_same_nonzero _ _ Hty)); simpl.
  destruct value.
  - by rewrite (proj2 (N.eqb_neq _ _) (land_lor_same_nonzero _ _ Hty)).
  - by rewrite N.land_ldiff.
Qed.

(** A 32-byte word is zero exactly when it is the zero word. *)
Lemma IsZero_Zero256 (w : list byte) :
  length w = 32 -> IsZero w = true <-> w = Zero256.
Proof.
  intros Hlen. unfold IsZero, Zero256. rewrite <- Hlen. clear Hlen.
  induction w as [|b w IH]; simpl; [by split|].
  rewrite andb_true_iff, IH. split.
  - intros [Hb Hw]. apply byte_dec_bl in Hb. by rewrite Hb, <- Hw.
  - intros [= Hb Hw]. rewrite Hb, <- Hw. done.
Qed.

(** Reading an account after an update. *)
Lemma GetAccount_UpdateAccount s acc addr :
  GetAccount (UpdateAccount s acc) addr =
  if decide (Address acc = addr) then Some acc else GetAccount s addr.
Proof. unfold GetAccount, UpdateAccount; simpl. apply lookup_insert. Qed.

(** [UpdateAccount] stores the account under its own address, so it keeps
    the store well formed; hence so does every executable. *)
Lemma wf_UpdateAccount s acc : wf_state s -> wf_state (UpdateAccount s acc).
Proof.
  intros Hwf addr x. rewrite GetAccount_UpdateAccount.
  case_decide as Ha; [intros [= <-]; exact Ha | apply Hwf].
Qed.

Lemma run_preserves_wf `{consts : ptypes.Constants} c s args :
  wf_state s -> wf_state (snd (run c s args)).
Proof.
  intros Hwf.
  destruct c; unfold_exec;
    repeat (case_match; simpl in *; simplify_eq; try done);
    by apply wf_UpdateAccount.
Qed.

Section BasePerm.

Context {consts : ptypes.Constants}.

(** C4.  After a SetBase call that returned normally (so the account
    exists and the flag was accepted), HasBase for the same address and
    flag words returns the encoded [true] when the value word was not the
    zero word, and the encoded [false] when it was. *)
Theorem setBase_hasBase_roundtrip s args :
  wf_state s ->
  is_Return (fst (setBasePerm s args)) = true ->
  (take 32 (drop 64 args) <> Zero256 ->
   fst (hasBasePerm (snd (setBasePerm s args)) (take 32 args ++ take 32 (drop 32 args)))
   = Return (bool_word true))
  /\ (take 32 (drop 64 args) = Zero256 ->
   fst (hasBasePerm (snd (setBasePerm s args)) (take 32 args ++ take 32 (drop 32 args)))
   = Return (bool_word false)).
Proof.
  intros Hwf Hret.
  assert (Hgen : fst (hasBasePerm (snd (setBasePerm s args))
                   (take 32 args ++ take 32 (drop 32 args)))
                 = Return (bool_word (negb (IsZero (take 32 (drop 64 args)))))).
  { revert Hret.
    unfold setBasePerm, hasBasePerm, bind, orPanic, orFail, getAccount,
      updateAccount, ret, fail, returnThreeArgs.
    case_decide as Hlen; [|done]. simpl.
    destruct (GetAccount s (take 32 args)) as [acc|] eqn:Hacc; [|done].
    destruct (ValidPermN _) eqn:Hvalid; [|done]. simpl.
    destruct (ptypes.BasePermissions_Set _ _ _) as [e|base] eqn:Hset; [done|]. simpl.
    intros _.
    rewrite returnTwoArgs_app by (rewrite ?length_take, ?length_drop; lia). simpl.
    rewrite GetAccount_UpdateAccount. simpl.
    rewrite decide_True by (by apply Hwf).
    rewrite Hvalid. simpl.
    rewrite (HasPermission_after_Set _ _ _ _ _ _ Hset).
    by destruct (IsZero _). }
  assert (Hl : length (take 32 (drop 64 args)) = 32).
  { revert Hret. unfold setBasePerm, bind, orPanic, returnThreeArgs.
    case_decide; [|done]. intros _. rewrite length_take, length_drop. lia. }
  rewrite Hgen. split; intros Hz.
  - destruct (IsZero _) eqn:E; [|done]. by apply IsZero_Zero256 in E.
  - apply IsZero_Zero256 in Hz; [|done]. by rewrite Hz.
Qed.


End BasePerm.

(** ** Roles *)

Lemma with_Permissions_same acc : with_Permissions acc (Permissions acc) = acc.
Proof. by destruct acc. Qed.

(** C6.  For an account that exists: AddRole of a role it already has
    returns the encoded [false] and leaves the account, so its role set,
    as it was; RmRole of a role it does not have returns the encoded
    [false] and leaves the account as it was; and after an AddRole that
    returned the encoded [true], RmRole of the same role returns the
    encoded [true] and the account's role set is the original one. *)
Theorem role_add_remove s args acc :
  wf_state s ->
  64 <= length args ->
  GetAccount s (take 32 args) = Some acc ->
  (take 32 (drop 32 args) ∈ ptypes.Roles (Permissions acc) ->
     fst (addRole s args) = Return (bool_word false)
     /\ GetAccount (snd (addRole s args)) (take 32 args) = Some acc)
  /\ (take 32 (drop 32 args) ∉ ptypes.Roles (Permissions acc) ->
     fst (rmRole s args) = Return (bool_word false)
     /\ GetAccount (snd (rmRole s args)) (take 32 args) = Some acc)
  /\ (fst (addRole s args) = Return (bool_word true) ->
     fst (rmRole (snd (addRole s args)) args) = Return (bool_word true)
     /\ exists acc2,
          GetAccount (snd (rmRole (snd (addRole s args)) args)) (take 32 args) = Some acc2
          /\ ptypes.Roles (Permissions acc2) = ptypes.Roles (Permissions acc)).
Proof.
  intros Hwf Hlen Hacc.
  pose proof (Hwf _ _ Hacc) as Haddr.
  unfold addRole, rmRole, bind, orPanic, getAccount, updateAccount, ret, fail,
    returnTwoArgs, Bytes.
  rewrite decide_True by done. simpl. rewrite Hacc.
  unfold ptypes.AccountPermissions_AddRole, ptypes.AccountPermissions_RmRole.
  split; [|split].
  - intros Hin. rewrite bool_decide_eq_true_2 by done. simpl.
    split; [done|]. rewrite GetAccount_UpdateAccount, with_Permissions_same.
    by rewrite decide_True.
  - intros Hnotin. rewrite bool_decide_eq_false_2 by done. simpl.
    split; [done|]. rewrite GetAccount_UpdateAccount, with_Permissions_same.
    by rewrite decide_True.
  - case_bool_decide as Hin; simpl; [discriminate|]. intros _.
    rewrite GetAccount_UpdateAccount. simpl. rewrite decide_True by done. simpl.
    rewrite bool_decide_eq_true_2
      by (apply elem_of_union_r, elem_of_singleton; reflexivity).
    simpl. split; [done|]. eexists. rewrite GetAccount_UpdateAccount. simpl.
    rewrite decide_True by done. split; [done|]. simpl.
    apply set_eq. intros x.
    rewrite elem_of_difference, elem_of_union, elem_of_singleton.
    split.
    + intros [[Hx | Hx] Hne]; [exact Hx | contradiction].
    + intros Hx. split; [by left|]. intros ->. contradiction.
Qed.

(** ** Booleans in words *)

Section Booleans.

Context {consts : ptypes.Constants}.

(** C8.  For a call whose buffer holds the contract's words, whose address
    has an account and whose flag, if any, is in range: HasBase, HasRole,
    AddRole and RmRole return 31 zero bytes followed by 0x01 if the boolean
    they report is true and by 0x00 if it is false; SetBase and SetGlobal
    call [Set] with the value "the value word is not the zero word", and
    when [Set] accepts the flag they persist the account so changed and
    return the value word (when it refuses, they fail with its error and
    write nothing). *)
Theorem boolean_words c s args acc :
  NArgs (getSNativeInfo c) * 32 <= length args ->
  GetAccount s (addr_arg c args) = Some acc ->
  invalid_flag c args = false ->
  (c = ptypes.HasBase \/ c = ptypes.HasRole \/ c = ptypes.AddRole \/ c = ptypes.RmRole ->
   exists b, boolean_answer c s args = Some b
             /\ fst (run c s args)
                = Return (replicate 31 x00 ++ [if b then x01 else x00]))
  /\ (c = ptypes.SetBase \/ c = ptypes.SetGlobal ->
      forall flag, flag_arg c args = Some flag ->
      match ptypes.BasePermissions_Set (ptypes.Base (Permissions acc))
              (Uint64FromWord256 flag) (bool_decide (value_arg c args <> Zero256)) with
      | inr base =>
          run c s args = (Return (value_arg c args), UpdateAccount s (with_Base acc base))
      | inl e => run c s args = (Fail e, s)
      end).
Proof.
  intros Hlen Hacc Hflag. split.
  - intros Hc. unfold invalid_flag in Hflag.
    destruct Hc as [-> | [-> | [-> | ->]]]; simpl in *; unfold_exec;
      unfold boolean_answer, returnTwoArgs, Bytes;
      rewrite decide_True by done; simpl; rewrite Hacc; simpl.
    + apply negb_false_iff in Hflag. rewrite Hflag. simpl. eauto.
    + eauto.
    + unfold ptypes.AccountPermissions_AddRole.
      destruct (decide (take 32 (drop 32 args) ∈ ptypes.Roles (Permissions acc)))
        as [Hin|Hin].
      * rewrite (bool_decide_eq_true_2 _ Hin).
        rewrite bool_decide_eq_false_2 by (intros H; by apply H).
        simpl. eauto.
      * rewrite (bool_decide_eq_false_2 _ Hin).
        rewrite (bool_decide_eq_true_2 (_ ∉ _)) by done.
        simpl. eauto.
    + unfold ptypes.AccountPermissions_RmRole.
      case_bool_decide as Hin; simpl; eauto.
  - assert (Hv : forall w : list byte, length w = 32 ->
              negb (IsZero w) = bool_decide (w <> Zero256)).
    { intros w Hw. pose proof (IsZero_Zero256 w Hw) as Hz.
      destruct (IsZero w) eqn:E; case_bool_decide as Hd; simpl; try done.
      - exfalso. by apply Hd, Hz.
      - destruct (decide (w = Zero256)) as [Heq|Hne]; [|done].
        apply Hz in Heq. congruence. }
    unfold invalid_flag in Hflag.
    intros [-> | ->] flag [= <-]; simpl in *; unfold_exec;
      unfold returnTwoArgs, returnThreeArgs, Bytes;
      rewrite decide_True by done; simpl; rewrite Hacc;
      apply negb_false_iff in Hflag; rewrite Hflag; simpl;
      rewrite Hv by (rewrite length_take, length_drop; lia);
      destruct (ptypes.BasePermissions_Set _ _ _) as [e|base]; reflexivity.
Qed.

End Booleans.

(** ** The flag word *)





Section FlagWord.

Context {consts : ptypes.Constants}.


End FlagWord.

(** ** The error for a rejected flag *)

Section RejectedFlag.

Context {consts : ptypes.Constants}.

(** C3, as amended.  For an executable that takes a flag, called with an
    existing account: the flag is rejected (out of range, or refused by
    the base permissions) exactly when the call fails with
    [ptypes.ErrInvalidPermission] of that flag, which is built from the
    flag alone; and the call fails with no other error. *)
Theorem rejected_flag_error c s args w :
  flag_arg c args = Some w ->
  NArgs (getSNativeInfo c) * 32 <= length args ->
  is_Some (GetAccount s (addr_arg c args)) ->
  (rejects_flag c (Uint64FromWord256 w) = true <->
     fst (run c s args) = Fail (ptypes.ErrInvalidPermission (Uint64FromWord256 w)))
  /\ (forall e, fst (run c s args) = Fail e ->
        e = ptypes.ErrInvalidPermission (Uint64FromWord256 w)).
Proof.
  intros Hw Hlen [acc Hacc].
  destruct c; simpl in Hw, Hlen, Hacc; try discriminate Hw; injection Hw as <-;
    unfold_exec; unfold rejects_flag, returnTwoArgs, returnThreeArgs,
      ptypes.BasePermissions_Set, ptypes.BasePermissions_Unset;
    rewrite !decide_True by done; simpl; rewrite Hacc;
    destruct (ValidPermN _); simpl;
    try (destruct (N.eqb _ 0) eqn:Hz; simpl);
    (split; [split; (done || congruence) | intros e; (done || congruence)]).
Qed.

(** No executable fails with the struct [ErrInvalidPermission] that
    [snative.go] declares. *)
Lemma struct_error_never_returned c s args e :
  fst (run c s args) <> Fail (NoSNativePermission e).
Proof.
  destruct c; unfold_exec;
    unfold ptypes.BasePermissions_Set, ptypes.BasePermissions_Unset;
    repeat (case_match; simpl in *; simplify_eq; try done).
Qed.

End RejectedFlag.

(** * The properties on the concrete configuration *)

Lemma sample_state_wf : wf_state sample_state.
Proof.
  intros addr acc. unfold GetAccount, sample_state; simpl.
  rewrite !lookup_insert, lookup_empty.
  repeat case_decide; subst; intros [= <-]; reflexivity.
Qed.

(** SetBase on [0xAA..AA] with flag 65, which lies between the base flags and
    the snative flags. *)
Lemma no_mutation_on_failure_witness :
  let args := addrAA ++ word_of_byte x41 ++ word_of_byte x01 in
  unknown_account (consts := sample_constants) ptypes.SetBase sample_state args
    || invalid_flag (consts := sample_constants) ptypes.SetBase args = true
  /\ is_Return (fst (run (consts := sample_constants) ptypes.SetBase sample_state args)) = false
  /\ updated (snd (run (consts := sample_constants) ptypes.SetBase sample_state args))
     = updated sample_state.
Proof.
  intros args.
  pose proof (no_mutation_on_failure (consts := sample_constants)
                ptypes.SetBase sample_state args) as [H1 H2].
  assert (Hv : unknown_account (consts := sample_constants) ptypes.SetBase sample_state args
               || invalid_flag (consts := sample_constants) ptypes.SetBase args = true)
    by (vm_compute; reflexivity).
  split; [exact Hv|]. split; [exact (H1 Hv)|]. exact (proj1 (H2 (H1 Hv))).
Defined.

(** HasBase on [0xCC..CC], which has no account, with the out-of-range
    flag 65. *)
Lemma unknown_account_before_flag_check_witness :
  let args := addrCC ++ word_of_byte x41 in
  ValidPermN (consts := sample_constants) (Uint64FromWord256 (take 32 (drop 32 args))) = false
  /\ GetAccount sample_state (take 32 args) = None
  /\ run (consts := sample_constants) ptypes.HasBase sample_state args
     = (Fail (Errorf_Unknown_account addrCC), sample_state).
Proof.
  intros args.
  assert (Hnone : GetAccount sample_state (take 32 args) = None)
    by (vm_compute; reflexivity).
  split; [vm_compute; reflexivity|]. split; [exact Hnone|].
  refine (unknown_account_before_flag_check (consts := sample_constants)
            ptypes.HasBase sample_state args (or_introl eq_refl) _ Hnone).
  vm_compute. lia.
Defined.

(** AddRole of "auditor" on [0xBB..BB]. *)
Lemma role_update_always_persists_witness :
  let args := addrBB ++ role_auditor in
  64 <= length args
  /\ is_Some (GetAccount sample_state (take 32 args))
  /\ is_Return (fst (run (consts := sample_constants) ptypes.AddRole sample_state args)) = true
  /\ exists acc acc',
       GetAccount sample_state (take 32 args) = Some acc
       /\ Address acc' = Address acc
       /\ snd (run (consts := sample_constants) ptypes.AddRole sample_state args)
          = UpdateAccount sample_state acc'
       /\ updated (snd (run (consts := sample_constants) ptypes.AddRole sample_state args))
          = updated sample_state ++ [acc'].
Proof.
  intros args.
  assert (Hlen : 64 <= length args) by (vm_compute; lia).
  assert (Hacc : is_Some (GetAccount sample_state (take 32 args)))
    by (exists (blank_account addrBB); vm_compute; reflexivity).
  pose proof (role_update_always_persists (consts := sample_constants)
                ptypes.AddRole sample_state args (or_introl eq_refl) Hlen) as [Hiff H].
  split; [exact Hlen|]. split; [exact Hacc|].
  split; [exact (proj2 Hiff Hacc) | exact (H (proj2 Hiff Hacc))].
Defined.

(** SetBase of flag 4 to 1 on [0xAA..AA], then HasBase of flag 4. *)
Lemma setBase_hasBase_roundtrip_witness :
  let args := addrAA ++ word_of_byte x04 ++ word_of_byte x01 in
  wf_state sample_state
  /\ is_Return (fst (setBasePerm (consts := sample_constants) sample_state args)) = true
  /\ take 32 (drop 64 args) <> Zero256
  /\ fst (hasBasePerm (consts := sample_constants)
            (snd (setBasePerm (consts := sample_constants) sample_state args))
            (take 32 args ++ take 32 (drop 32 args)))
     = Return (bool_word true).
Proof.
  intros args.
  assert (Hr : is_Return (fst (setBasePerm (consts := sample_constants)
                                 sample_state args)) = true)
    by (vm_compute; reflexivity).
  assert (Hnz : take 32 (drop 64 args) <> Zero256) by (vm_compute; discriminate).
  split; [exact sample_state_wf|]. split; [exact Hr|]. split; [exact Hnz|].
  exact (proj1 (setBase_hasBase_roundtrip (consts := sample_constants)
                  sample_state args sample_state_wf Hr) Hnz).
Defined.



(** AddRole then RmRole of "auditor" on [0xBB..BB], which has no role. *)
Lemma role_add_remove_witness :
  let args := addrBB ++ role_auditor in
  wf_state sample_state
  /\ 64 <= length args
  /\ GetAccount sample_state (take 32 args) = Some (blank_account addrBB)
  /\ fst (addRole sample_state args) = Return (bool_word true)
  /\ fst (rmRole
            (snd (addRole sample_state args)) args)
     = Return (bool_word true)
  /\ exists acc2,
       GetAccount (snd (rmRole
                          (snd (addRole sample_state args))
                          args)) (take 32 args) = Some acc2
       /\ ptypes.Roles (Permissions acc2) = ptypes.Roles (Permissions (blank_account addrBB)).
Proof.
  intros args.
  assert (Hlen : 64 <= length args) by (vm_compute; lia).
  assert (Hacc : GetAccount sample_state (take 32 args) = Some (blank_account addrBB))
    by (vm_compute; reflexivity).
  assert (Hadd : fst (addRole sample_state args)
                 = Return (bool_word true))
    by (vm_compute; reflexivity).
  pose proof (role_add_remove sample_state args
                (blank_account addrBB) sample_state_wf Hlen Hacc) as (_ & _ & H3).
  split; [exact sample_state_wf|]. split; [exact Hlen|]. split; [exact Hacc|].
  split; [exact Hadd|]. exact (H3 Hadd).
Defined.

(** SetBase of flag 4 on [0xAA..AA] with the value word 2: the account is
    persisted with flag 4 set and on, and the word 2 is returned.  HasBase
    of flag 4 on [0xAA..AA] in the state so reached reports true: 31 zero
    bytes, then 0x01. *)
Lemma boolean_words_witness :
  let argsS := addrAA ++ word_of_byte x04 ++ word_of_byte x02 in
  let argsH := addrAA ++ word_of_byte x04 in
  let acc1 := with_Base (blank_account addrAA) {| ptypes.Perms := 4; ptypes.SetBit := 4 |} in
  let s1 := UpdateAccount sample_state acc1 in
  (GetAccount sample_state (addr_arg (consts := sample_constants) ptypes.SetBase argsS)
     = Some (blank_account addrAA)
   /\ invalid_flag (consts := sample_constants) ptypes.SetBase argsS = false
   /\ run (consts := sample_constants) ptypes.SetBase sample_state argsS
      = (Return (word_of_byte x02), s1))
  /\ (GetAccount s1 (addr_arg (consts := sample_constants) ptypes.HasBase argsH) = Some acc1
      /\ invalid_flag (consts := sample_constants) ptypes.HasBase argsH = false
      /\ fst (run (consts := sample_constants) ptypes.HasBase s1 argsH)
         = Return (replicate 31 x00 ++ [x01])).
Proof.
  intros argsS argsH acc1 s1. split.
  - assert (Hlen : NArgs (getSNativeInfo (consts := sample_constants) ptypes.SetBase) * 32
                   <= length argsS) by (vm_compute; lia).
    assert (Hacc : GetAccount sample_state
                     (addr_arg (consts := sample_constants) ptypes.SetBase argsS)
                   = Some (blank_account addrAA)) by (vm_compute; reflexivity).
    assert (Hf : invalid_flag (consts := sample_constants) ptypes.SetBase argsS = false)
      by (vm_compute; reflexivity).
    split; [exact Hacc|]. split; [exact Hf|].
    exact (proj2 (boolean_words (consts := sample_constants) ptypes.SetBase sample_state
                    argsS _ Hlen Hacc Hf)
             (or_introl eq_refl) (word_of_byte x04) eq_refl).
  - assert (Hlen : NArgs (getSNativeInfo (consts := sample_constants) ptypes.HasBase) * 32
                   <= length argsH) by (vm_compute; lia).
    assert (Hacc : GetAccount s1 (addr_arg (consts := sample_constants) ptypes.HasBase argsH)
                   = Some acc1) by (vm_compute; reflexivity).
    assert (Hf : invalid_flag (consts := sample_constants) ptypes.HasBase argsH = false)
      by (vm_compute; reflexivity).
    split; [exact Hacc|]. split; [exact Hf|].
    destruct (proj1 (boolean_words (consts := sample_constants) ptypes.HasBase s1
                       argsH _ Hlen Hacc Hf) (or_introl eq_refl)) as (b & Hb & Hrun).
    assert (Hbt : b = true) by (vm_compute in Hb; congruence).
    rewrite Hbt in Hrun. exact Hrun.
Defined.



(** SetBase on [0xAA..AA] with flag 65. *)
Lemma rejected_flag_error_witness :
  let args := addrAA ++ word_of_byte x41 ++ word_of_byte x01 in
  flag_arg ptypes.SetBase args = Some (word_of_byte x41)
  /\ is_Some (GetAccount sample_state (addr_arg (consts := sample_constants) ptypes.SetBase args))
  /\ rejects_flag (consts := sample_constants) ptypes.SetBase
       (Uint64FromWord256 (word_of_byte x41)) = true
  /\ fst (run (consts := sample_constants) ptypes.SetBase sample_state args)
     = Fail (ptypes.ErrInvalidPermission (Uint64FromWord256 (word_of_byte x41))).
Proof.
  intros args.
  assert (Hw : flag_arg ptypes.SetBase args = Some (word_of_byte x41))
    by (vm_compute; reflexivity).
  assert (Hacc : is_Some (GetAccount sample_state
                            (addr_arg (consts := sample_constants) ptypes.SetBase args)))
    by (exists (blank_account addrAA); vm_compute; reflexivity).
  assert (Hlen : NArgs (getSNativeInfo (consts := sample_constants) ptypes.SetBase) * 32
                 <= length args) by (vm_compute; lia).
  assert (Hrej : rejects_flag (consts := sample_constants) ptypes.SetBase
                   (Uint64FromWord256 (word_of_byte x41)) = true)
    by (vm_compute; reflexivity).
  split; [exact Hw|]. split; [exact Hacc|]. split; [exact Hrej|].
  exact (proj1 (proj1 (rejected_flag_error (consts := sample_constants) ptypes.SetBase
                         sample_state args _ Hw Hlen Hacc)) Hrej).
Defined.

(** C3, counterexample.  HasBase and SetBase, both called on [0xAA..AA] with
    the out-of-range flag 65, fail with one and the same error value; hence
    no reading of the error can yield the contract that was invoked. *)
Lemma invalid_permission_error_names_no_contract :
  let argsH := addrAA ++ word_of_byte x41 in
  let argsS := addrAA ++ word_of_byte x41 ++ word_of_byte x01 in
  fst (run (consts := sample_constants) ptypes.HasBase sample_state argsH)
    = Fail (ptypes.ErrInvalidPermission 65)
  /\ fst (run (consts := sample_constants) ptypes.SetBase sample_state argsS)
    = Fail (ptypes.ErrInvalidPermission 65)
  /\ ~ exists contract_of : error -> ptypes.SNativePerm,
       forall c s args e,
         invalid_flag (consts := sample_constants) c args = true ->
         fst (run (consts := sample_constants) c s args) = Fail e ->
         contract_of e = c.
Proof.
  intros argsH argsS.
  assert (HH : fst (run (consts := sample_constants) ptypes.HasBase sample_state argsH)
    = Fail (ptypes.ErrInvalidPermission 65)) by (vm_compute; reflexivity).
  assert (HS : fst (run (consts := sample_constants) ptypes.SetBase sample_state argsS)
    = Fail (ptypes.ErrInvalidPermission 65)) by (vm_compute; reflexivity).
  split; [exact HH|]. split; [exact HS|].
  intros [contract_of Hf].
  pose proof (Hf ptypes.HasBase sample_state argsH _ eq_refl HH) as H1.
  pose proof (Hf ptypes.SetBase sample_state argsS _ eq_refl HS) as H2.
  congruence.
Qed.

(** ** The scenarios of section 8 on the concrete configuration *)

(** Scenario 1: [0xAA..AA] has no base permission; HasBase of flag 5 is
    false, SetBase of flag 5 to 1 returns the value word, and HasBase of
    flag 5 is then true. *)
Example scenario_hasBase_setBase_hasBase :
  let s1 := snd (setBasePerm (consts := sample_constants) sample_state
                   (addrAA ++ word_of_byte x05 ++ word_of_byte x01)) in
  fst (hasBasePerm (consts := sample_constants) sample_state (addrAA ++ word_of_byte x05))
    = Return (bool_word false)
  /\ fst (setBasePerm (consts := sample_constants) sample_state
            (addrAA ++ word_of_byte x05 ++ word_of_byte x01))
     = Return (word_of_byte x01)
  /\ fst (hasBasePerm (consts := sample_constants) s1 (addrAA ++ word_of_byte x05))
     = Return (bool_word true).
Proof. vm_compute. auto. Qed.

(** Scenario 3: AddRole of "auditor" on [0xBB..BB] is true, a second AddRole
    is false, RmRole is true and the role is gone. *)
Example scenario_addRole_twice_rmRole :
  let args := addrBB ++ role_auditor in
  let s1 := snd (addRole sample_state args) in
  let s2 := snd (addRole s1 args) in
  let s3 := snd (rmRole s2 args) in
  fst (addRole sample_state args) = Return (bool_word true)
  /\ fst (addRole s1 args) = Return (bool_word false)
  /\ fst (hasRole s2 args) = Return (bool_word true)
  /\ fst (rmRole s2 args) = Return (bool_word true)
  /\ fst (hasRole s3 args) = Return (bool_word false)
  /\ length (updated s3) = 3.
Proof. vm_compute. auto 10. Qed.

(** The unknown-account scenario: each of the six executables that take an
    address fails on [0xCC..CC] and writes nothing. *)
Example scenario_unknown_account :
  Forall (fun c =>
            run (consts := sample_constants) c sample_state
              (addrCC ++ word_of_byte x01 ++ word_of_byte x01)
            = (Fail (Errorf_Unknown_account addrCC), sample_state))
    [ptypes.HasBase; ptypes.SetBase; ptypes.UnsetBase;
     ptypes.HasRole; ptypes.AddRole; ptypes.RmRole].
Proof. repeat constructor. Qed.

(** * Further properties of [snative.go] *)

(** ** Decoding the argument buffer *)

(** X12.  On a buffer that starts with two 32-byte words [returnTwoArgs]
    returns those two words, and on one that starts with three 32-byte
    words [returnThreeArgs] returns those three, whatever follows them. *)
Theorem decoders_split_words (a b c rest : list byte) :
  length a = 32 -> length b = 32 -> length c = 32 ->
  returnTwoArgs (a ++ b ++ rest) = Some (a, b)
  /\ returnThreeArgs (a ++ b ++ c ++ rest) = Some (a, b, c).
Proof.
  intros Ha Hb Hc. split.
  - unfold returnTwoArgs.
    rewrite decide_True by (rewrite !length_app; lia).
    rewrite take_app_length' by done. rewrite drop_app_length' by done.
    by rewrite take_app_length'.
  - unfold returnThreeArgs.
    rewrite decide_True by (rewrite !length_app; lia).
    replace (drop 64 (a ++ b ++ c ++ rest))
      with (drop 32 (drop 32 (a ++ b ++ c ++ rest))) by (by rewrite drop_drop).
    rewrite take_app_length' by done.
    rewrite (drop_app_length' a) by done.
    rewrite take_app_length' by done.
    rewrite (drop_app_length' b) by done.
    by rewrite take_app_length'.
Qed.

Section Calls.

Context {consts : ptypes.Constants}.

(** ** What a call writes *)

(** X1.  HasBase and HasRole hand back the state they were given, whatever
    the buffer holds and however the call ends. *)
Theorem readonly_executables c s args :
  mutates c = false -> snd (run c s args) = s.
Proof.
  destruct c; try discriminate; intros _; unfold_exec;
    repeat (case_match; simpl in *; simplify_eq; try done).
Qed.

(** X2.  A call makes one [UpdateAccount] call when it is a call of SetBase,
    UnsetBase, SetGlobal, AddRole or RmRole that returns normally, and none
    otherwise. *)
Theorem persist_count c s args :
  length (updated (snd (run c s args)))
  = length (updated s) + (if mutates c && is_Return (fst (run c s args)) then 1 else 0).
Proof.
  destruct c; unfold_exec;
    repeat (case_match; simpl in *; simplify_eq; try done);
    rewrite ?length_app; simpl; lia.
Qed.

(** The final state is the initial one, or the initial one with the account
    found at the call's address written back under the address it carries;
    a call of a flag-taking executable writes it back with its roles. *)
Lemma run_state_shape c s args :
  snd (run c s args) = s
  \/ exists acc acc', GetAccount s (addr_arg c args) = Some acc
       /\ Address acc' = Address acc
       /\ (takes_flag c = true ->
           ptypes.Roles (Permissions acc') = ptypes.Roles (Permissions acc))
       /\ snd (run c s args) = UpdateAccount s acc'.
Proof.
  destruct c; unfold_exec; unfold returnTwoArgs, returnThreeArgs;
    repeat (case_match; simpl in *; simplify_eq; try (left; reflexivity));
    right;
    refine (ex_intro _ _ (ex_intro _ _ (conj eq_refl (conj _ (conj _ eq_refl)))));
    simpl; (reflexivity || (intros; (reflexivity || discriminate))).
Qed.

(** X3.  In a store where every account sits under its own address, a call
    leaves the account at every address other than the one it addresses
    (the first word, or the global address for SetGlobal) as it was. *)
Theorem call_frame c s args addr :
  wf_state s ->
  addr <> addr_arg c args ->
  GetAccount (snd (run c s args)) addr = GetAccount s addr.
Proof.
  intros Hwf Hne.
  destruct (run_state_shape c s args) as [-> | (acc & acc' & Hacc & Ha & _ & ->)]; [done|].
  rewrite GetAccount_UpdateAccount, Ha, (Hwf _ _ Hacc).
  by rewrite decide_False.
Qed.

(** X4.  In a store where every account sits under its own address, no call
    creates or removes an account: the same addresses have an account after
    the call as before, and every account still sits under its own
    address. *)
Theorem accounts_preserved c s args :
  wf_state s ->
  wf_state (snd (run c s args))
  /\ forall addr, is_Some (GetAccount (snd (run c s args)) addr) <-> is_Some (GetAccount s addr).
Proof.
  intros Hwf. split; [by apply run_preserves_wf|].
  intros addr.
  destruct (run_state_shape c s args) as [-> | (acc & acc' & Hacc & Ha & _ & ->)]; [done|].
  rewrite GetAccount_UpdateAccount, Ha, (Hwf _ _ Hacc).
  case_decide as Hd; [|done]. subst addr. rewrite Hacc. split; eauto.
Qed.

(** X5.  HasBase, SetBase, UnsetBase and SetGlobal reach an account only
    through [Permissions.Base]: in a store where every account sits under
    its own address, the roles of every account are the same after the call
    as before. *)
Theorem base_calls_keep_roles c s args addr :
  takes_flag c = true ->
  wf_state s ->
  (fun acc => ptypes.Roles (Permissions acc)) <$> GetAccount (snd (run c s args)) addr
  = (fun acc => ptypes.Roles (Permissions acc)) <$> GetAccount s addr.
Proof.
  intros Hc Hwf.
  destruct (run_state_shape c s args) as [-> | (acc & acc' & Hacc & Ha & Hr & ->)]; [done|].
  rewrite GetAccount_UpdateAccount, Ha, (Hwf _ _ Hacc).
  case_decide as Hd; [|done]. subst addr. rewrite Hacc. simpl. by rewrite Hr.
Qed.

(** ** What a call returns *)

(** X6.  Every result is 32 bytes long.  SetBase and SetGlobal return the
    value word as it was given (not a normalised boolean), UnsetBase returns
    the flag word as it was given, and the other four return the encoded
    true or the encoded false. *)
Theorem result_words c s args out :
  fst (run c s args) = Return out ->
  length out = 32
  /\ match c with
     | ptypes.SetBase | ptypes.SetGlobal => out = value_arg c args
     | ptypes.UnsetBase => Some out = flag_arg c args
     | _ => out = bool_word true \/ out = bool_word false
     end.
Proof.
  destruct c; unfold_exec; unfold returnTwoArgs, returnThreeArgs, Bytes;
    repeat (case_match; simpl in *; simplify_eq; try done);
    intros [= <-]; rewrite ?length_take, ?length_drop;
    (split; [first [reflexivity | lia] | auto]).
Qed.


(** X8.  A call reads only the first [NArgs] words of its buffer: bytes
    after them change neither the outcome nor the final state. *)
Theorem trailing_bytes_ignored c s args :
  NArgs (getSNativeInfo c) * 32 <= length args ->
  run c s (take (NArgs (getSNativeInfo c) * 32) args) = run c s args.
Proof.
  intros Hlen.
  assert (H1 : forall n, 32 <= n -> take 32 (take n args) = take 32 args).
  { intros n Hn. rewrite take_take. f_equal. lia. }
  assert (H2 : forall n, 64 <= n -> take 32 (drop 32 (take n args)) = take 32 (drop 32 args)).
  { intros n Hn. rewrite skipn_firstn_comm, take_take. f_equal. lia. }
  assert (H3 : forall n, 96 <= n -> take 32 (drop 64 (take n args)) = take 32 (drop 64 args)).
  { intros n Hn. rewrite skipn_firstn_comm, take_take. f_equal. lia. }
  destruct c; simpl in *; unfold_exec; unfold returnTwoArgs, returnThreeArgs;
    rewrite !decide_True by (rewrite ?length_take; lia); simpl;
    rewrite ?H1, ?H2, ?H3 by lia; reflexivity.
Qed.

(** X9.  On a buffer that holds the contract's [NArgs] words, a call fails
    with the unknown-account error for an address exactly when the
    executable is not SetGlobal, the address is the first word and no
    account is stored there. *)
Theorem unknown_account_error_iff c s args a :
  NArgs (getSNativeInfo c) * 32 <= length args ->
  (fst (run c s args) = Fail (Errorf_Unknown_account a) <->
   c <> ptypes.SetGlobal
   /\ a = take 32 args
   /\ GetAccount s a = None).
Proof.
  intros Hlen. split.
  - destruct c; simpl in Hlen; unfold_exec;
      unfold returnTwoArgs, returnThreeArgs, ptypes.BasePermissions_Set,
        ptypes.BasePermissions_Unset, ptypes.ErrInvalidPermission;
      rewrite decide_True by done; simpl;
      repeat (case_match; simpl in *; simplify_eq; try done);
      intros [= <-]; repeat split; done.
  - intros (Hc & -> & Hnone).
    destruct c; try done; simpl in Hlen; unfold_exec; unfold returnTwoArgs, returnThreeArgs;
      rewrite decide_True by lia; simpl; by rewrite Hnone.
Qed.


(** X16.  HasRole, AddRole and RmRole fail in one way only, with the
    unknown-account error for the first word; HasBase fails with that error
    or with [ptypes.ErrInvalidPermission] of its flag. *)
Theorem boolean_calls_errors c s args e :
  c = ptypes.HasBase \/ c = ptypes.HasRole \/ c = ptypes.AddRole \/ c = ptypes.RmRole ->
  fst (run c s args) = Fail e ->
  (e = Errorf_Unknown_account (take 32 args) /\ GetAccount s (take 32 args) = None)
  \/ (c = ptypes.HasBase
      /\ e = ptypes.ErrInvalidPermission (Uint64FromWord256 (take 32 (drop 32 args)))
      /\ ValidPermN (Uint64FromWord256 (take 32 (drop 32 args))) = false).
Proof.
  intros [-> | [-> | [-> | ->]]]; unfold_exec; unfold returnTwoArgs;
    (case_decide; simpl; [|done]);
    (destruct (GetAccount s (take 32 args)) as [acc|] eqn:Hacc; simpl;
      [|intros [= <-]; by left]).
  - destruct (ValidPermN _) eqn:Hv; simpl; [done|]. intros [= <-]. right. done.
  - done.
  - destruct (ptypes.AccountPermissions_AddRole _ _); simpl. done.
  - destruct (ptypes.AccountPermissions_RmRole _ _); simpl. done.
Qed.

(** ** How calls compose *)

(** X10.  With the global permissions account present, SetGlobal on a buffer
    is SetBase on the global address followed by that buffer: same outcome,
    same final state.  With the account missing they differ: SetGlobal
    panics where SetBase fails with the unknown-account error. *)
Theorem setGlobal_is_setBase_at_global s args :
  length ptypes.GlobalPermissionsAddress256 = 32 ->
  64 <= length args ->
  (is_Some (GetAccount s ptypes.GlobalPermissionsAddress256) ->
   setGlobalPerm s args = setBasePerm s (ptypes.GlobalPermissionsAddress256 ++ args))
  /\ (GetAccount s ptypes.GlobalPermissionsAddress256 = None ->
      setGlobalPerm s args = (Panics "cant find the global permissions account", s)
      /\ setBasePerm s (ptypes.GlobalPermissionsAddress256 ++ args)
         = (Fail (Errorf_Unknown_account ptypes.GlobalPermissionsAddress256), s)).
Proof.
  intros HG Hlen.
  unfold setGlobalPerm, setBasePerm, bind, orPanic, orFail, getAccount, updateAccount,
    ret, fail, PanicSanity, returnTwoArgs, returnThreeArgs.
  rewrite !decide_True by (rewrite ?length_app; lia). simpl.
  replace (drop 64 (ptypes.GlobalPermissionsAddress256 ++ args))
    with (drop 32 (drop 32 (ptypes.GlobalPermissionsAddress256 ++ args)))
    by (by rewrite drop_drop).
  rewrite take_app_length' by done.
  rewrite !drop_app_length' by done.
  split.
  - intros [acc ->]. done.
  - intros ->. done.
Qed.

(** An executable other than HasBase consults the state only through the
    account at the call's address. *)
Lemma run_local c s1 s2 args :
  c <> ptypes.HasBase ->
  GetAccount s1 (addr_arg c args) = GetAccount s2 (addr_arg c args) ->
  fst (run c s1 args) = fst (run c s2 args)
  /\ ((snd (run c s1 args) = s1 /\ snd (run c s2 args) = s2)
      \/ exists acc acc', GetAccount s1 (addr_arg c args) = Some acc
           /\ Address acc' = Address acc
           /\ snd (run c s1 args) = UpdateAccount s1 acc'
           /\ snd (run c s2 args) = UpdateAccount s2 acc').
Proof.
  intros Hc Hget.
  destruct c; try done; simpl in Hget; unfold_exec; unfold returnTwoArgs, returnThreeArgs;
    (case_decide; simpl; [|by split; [|left]]);
    rewrite <- Hget;
    (destruct (GetAccount s1 _) as [acc|] eqn:Hacc; simpl; [|by split; [|left]]);
    try (destruct (ValidPermN _); simpl; [|by split; [|left]]);
    try (destruct (ptypes.BasePermissions_Set _ _ _); simpl; [by split; [|left]|]);
    try (destruct (ptypes.BasePermissions_Unset _ _); simpl; [by split; [|left]|]);
    try (destruct (ptypes.AccountPermissions_AddRole _ _); simpl);
    try (destruct (ptypes.AccountPermissions_RmRole _ _); simpl);
    (split; [done|]); try (by left); right;
    refine (ex_intro _ _ (ex_intro _ _ (conj eq_refl (conj _ (conj eq_refl eq_refl)))));
    reflexivity.
Qed.

(** X15.  In a store where every account sits under its own address, two
    calls that address different accounts, neither of them HasBase (which
    hands the whole state to [HasPermission]), can be made in either order:
    each has the outcome it has on the initial state, and the accounts
    stored at the end are the same. *)
Theorem calls_on_different_accounts_commute c1 c2 s args1 args2 :
  wf_state s ->
  c1 <> ptypes.HasBase -> c2 <> ptypes.HasBase ->
  addr_arg c1 args1 <> addr_arg c2 args2 ->
  fst (run c2 (snd (run c1 s args1)) args2) = fst (run c2 s args2)
  /\ fst (run c1 (snd (run c2 s args2)) args1) = fst (run c1 s args1)
  /\ accounts (snd (run c2 (snd (run c1 s args1)) args2))
     = accounts (snd (run c1 (snd (run c2 s args2)) args1)).
Proof.
  intros Hwf H1 H2 Hne.
  assert (F1 : GetAccount (snd (run c1 s args1)) (addr_arg c2 args2)
               = GetAccount s (addr_arg c2 args2)).
  { destruct (run_local c1 s s args1 H1 eq_refl)
      as [_ [[-> _] | (acc & acc' & Hacc & Ha & -> & _)]]; [done|].
    rewrite GetAccount_UpdateAccount, Ha, (Hwf _ _ Hacc). by rewrite decide_False. }
  assert (F2 : GetAccount (snd (run c2 s args2)) (addr_arg c1 args1)
               = GetAccount s (addr_arg c1 args1)).
  { destruct (run_local c2 s s args2 H2 eq_refl)
      as [_ [[-> _] | (acc & acc' & Hacc & Ha & -> & _)]]; [done|].
    rewrite GetAccount_UpdateAccount, Ha, (Hwf _ _ Hacc). by rewrite decide_False. }
  destruct (run_local c2 _ s args2 H2 F1) as [E2 S2].
  destruct (run_local c1 _ s args1 H1 F2) as [E1 S1].
  split; [exact E2|]. split; [exact E1|].
  destruct S2 as [[-> Hs2] | (a2 & a2' & Hg2 & Ha2 & -> & Hu2)];
    destruct S1 as [[-> Hs1] | (a1 & a1' & Hg1 & Ha1 & -> & Hu1)].
  - by rewrite Hs1, Hs2.
  - by rewrite Hs2, Hu1.
  - by rewrite Hs1, Hu2.
  - rewrite Hu1, Hu2. simpl.
    rewrite F1 in Hg2. rewrite F2 in Hg1.
    apply insert_insert_ne.
    rewrite Ha1, Ha2, (Hwf _ _ Hg1), (Hwf _ _ Hg2). done.
Qed.

(** ** The registry *)

Lemma name_word_inj c1 c2 :
  name_word (SNativeName c1) = name_word (SNativeName c2) -> c1 = c2.
Proof. destruct c1, c2; (reflexivity || (vm_compute; discriminate)). Qed.

(** X13.  [registerSNativeContracts] on the empty map does not panic and
    leaves seven entries: a word is a key exactly when it is the left-padded
    name of one of the seven contracts, and the descriptor found there is
    the one [getSNativeInfo] builds for that contract.  No registration
    overwrites another. *)
Theorem registry_lookup :
  exists contracts,
    RegisteredSNativeContracts = Some contracts
    /\ size contracts = 7
    /\ forall w si,
         contracts !! w = Some si <->
         exists c, w = name_word (SNativeName c) /\ si = getSNativeInfo c.
Proof.
  eexists. split; [reflexivity|].
  split; [reflexivity|].
  intros w si. split.
  - rewrite !lookup_insert, lookup_empty.
    repeat case_decide; try discriminate; intros [= <-]; subst w.
    + by exists ptypes.RmRole.
    + by exists ptypes.AddRole.
    + by exists ptypes.HasRole.
    + by exists ptypes.SetGlobal.
    + by exists ptypes.UnsetBase.
    + by exists ptypes.SetBase.
    + by exists ptypes.HasBase.
  - intros [c [-> ->]].
    rewrite !lookup_insert.
    destruct c;
      repeat (case_decide as Hk; [try reflexivity; by apply (name_word_inj _ _) in Hk|]);
      try done.
Qed.

End Calls.

(** ** The message of [ErrInvalidPermission] *)

Lemma hex_digit_inj (n m : N) :
  (n < 16)%N -> (m < 16)%N -> hex_digit n = hex_digit m -> n = m.
Proof.
  assert (Hnth : forall i j, i < 16 -> j < 16 ->
            nth i (String.list_byte_of_string "0123456789ABCDEF") x30
            = nth j (String.list_byte_of_string "0123456789ABCDEF") x30 -> i = j).
  { intros i j Hi Hj.
    do 16 (destruct i as [|i];
           [do 16 (destruct j as [|j]; [simpl; (reflexivity || discriminate)|]); lia|]).
    lia. }
  intros Hn Hm H. apply Hnth in H; lia.
Qed.

Lemma hex_byte_inj (b1 b2 : byte) :
  hex_digit (Byte.to_N b1 / 16) = hex_digit (Byte.to_N b2 / 16) ->
  hex_digit (Byte.to_N b1 mod 16) = hex_digit (Byte.to_N b2 mod 16) ->
  b1 = b2.
Proof.
  pose proof (Byte.to_N_bounded b1). pose proof (Byte.to_N_bounded b2).
  intros Hhi Hlo.
  apply hex_digit_inj in Hhi; [|apply N.Div0.div_lt_upper_bound; lia..].
  apply hex_digit_inj in Hlo; [|apply N.mod_lt; lia..].
  assert (E : Byte.to_N b1 = Byte.to_N b2).
  { rewrite (N.div_mod' (Byte.to_N b1) 16), (N.div_mod' (Byte.to_N b2) 16). congruence. }
  apply (f_equal Byte.of_N) in E. rewrite !Byte.of_to_N in E. congruence.
Qed.

Lemma Sprintf_X_inj (bz1 bz2 : list byte) :
  Sprintf_X bz1 = Sprintf_X bz2 -> bz1 = bz2.
Proof.
  revert bz2. induction bz1 as [|b1 bz1 IH]; intros [|b2 bz2]; simpl; try done.
  intros [= Hhi Hlo Hrest]. f_equal; [by apply hex_byte_inj | by apply IH].
Qed.

Lemma Sprintf_X_length (bz : list byte) : length (Sprintf_X bz) = 2 * length bz.
Proof. induction bz as [|b bz IH]; simpl; lia. Qed.

Lemma list_byte_of_string_inj (s1 s2 : string) :
  String.list_byte_of_string s1 = String.list_byte_of_string s2 -> s1 = s2.
Proof.
  intros H. apply (f_equal String.string_of_list_byte) in H.
  by rewrite !String.string_of_list_byte_of_string in H.
Qed.

(** X14.  For 32-byte addresses, two [ErrInvalidPermission] values have the
    same message exactly when their contract names are equal and their
    addresses agree on the last 20 bytes: the message shows the name and
    those 20 bytes, and nothing of the first 12 bytes of the address. *)
Theorem Error_message_content (e1 e2 : ErrInvalidPermission.t) :
  length (ErrInvalidPermission.Address e1) = 32 ->
  length (ErrInvalidPermission.Address e2) = 32 ->
  (ErrInvalidPermission_Error e1 = ErrInvalidPermission_Error e2 <->
   Postfix 20 (ErrInvalidPermission.Address e1) = Postfix 20 (ErrInvalidPermission.Address e2)
   /\ ErrInvalidPermission.SNative e1 = ErrInvalidPermission.SNative e2).
Proof.
  intros H1 H2. unfold ErrInvalidPermission_Error. split.
  - intros H. apply app_inv_head in H.
    apply app_inj_1 in H as [Hx H].
    + apply app_inv_head in H.
      split; [by apply Sprintf_X_inj | by apply list_byte_of_string_inj].
    + rewrite !Sprintf_X_length. unfold Postfix. rewrite !length_drop. lia.
  - intros [-> ->]. done.
Qed.

(** ** The further properties on the concrete configuration *)

(** HasRole of "auditor" on [0xBB..BB]. *)
Lemma readonly_executables_witness :
  mutates ptypes.HasRole = false
  /\ snd (run (consts := sample_constants) ptypes.HasRole sample_state
            (addrBB ++ role_auditor)) = sample_state.
Proof.
  split; [reflexivity|].
  exact (readonly_executables (consts := sample_constants) ptypes.HasRole sample_state
           (addrBB ++ role_auditor) eq_refl).
Defined.

(** SetBase of flag 4 on [0xAA..AA] leaves [0xBB..BB] alone. *)
Lemma call_frame_witness :
  let args := addrAA ++ word_of_byte x04 ++ word_of_byte x01 in
  wf_state sample_state
  /\ addrBB <> addr_arg (consts := sample_constants) ptypes.SetBase args
  /\ GetAccount (snd (run (consts := sample_constants) ptypes.SetBase sample_state args)) addrBB
     = GetAccount sample_state addrBB.
Proof.
  intros args.
  assert (Hne : addrBB <> addr_arg (consts := sample_constants) ptypes.SetBase args)
    by (vm_compute; discriminate).
  split; [exact sample_state_wf|]. split; [exact Hne|].
  exact (call_frame (consts := sample_constants) ptypes.SetBase sample_state args addrBB
           sample_state_wf Hne).
Defined.

(** AddRole on [0xBB..BB]: [0xCC..CC] still has no account. *)
Lemma accounts_preserved_witness :
  let args := addrBB ++ role_auditor in
  wf_state sample_state
  /\ wf_state (snd (run (consts := sample_constants) ptypes.AddRole sample_state args))
  /\ (is_Some (GetAccount (snd (run (consts := sample_constants) ptypes.AddRole
                                  sample_state args)) addrCC)
      <-> is_Some (GetAccount sample_state addrCC)).
Proof.
  intros args.
  pose proof (accounts_preserved (consts := sample_constants) ptypes.AddRole sample_state
                args sample_state_wf) as [Hwf Hdom].
  split; [exact sample_state_wf|]. split; [exact Hwf | exact (Hdom addrCC)].
Defined.

(** SetBase of flag 4 on [0xAA..AA] keeps the roles of [0xAA..AA]. *)
Lemma base_calls_keep_roles_witness :
  let args := addrAA ++ word_of_byte x04 ++ word_of_byte x01 in
  takes_flag ptypes.SetBase = true
  /\ wf_state sample_state
  /\ (fun acc => ptypes.Roles (Permissions acc))
       <$> GetAccount (snd (run (consts := sample_constants) ptypes.SetBase sample_state args))
             addrAA
     = (fun acc => ptypes.Roles (Permissions acc)) <$> GetAccount sample_state addrAA.
Proof.
  intros args.
  split; [reflexivity|]. split; [exact sample_state_wf|].
  exact (base_calls_keep_roles (consts := sample_constants) ptypes.SetBase sample_state
           args addrAA eq_refl sample_state_wf).
Defined.

(** SetBase of flag 4 with the value word 2 returns the word 2. *)
Lemma result_words_witness :
  let args := addrAA ++ word_of_byte x04 ++ word_of_byte x02 in
  fst (run (consts := sample_constants) ptypes.SetBase sample_state args)
    = Return (word_of_byte x02)
  /\ length (word_of_byte x02) = 32
  /\ word_of_byte x02 = value_arg ptypes.SetBase args.
Proof.
  intros args.
  assert (Hr : fst (run (consts := sample_constants) ptypes.SetBase sample_state args)
               = Return (word_of_byte x02)) by (vm_compute; reflexivity).
  split; [exact Hr|].
  exact (result_words (consts := sample_constants) ptypes.SetBase sample_state args _ Hr).
Defined.

(** HasBase with three extra bytes after its two words. *)
Lemma trailing_bytes_ignored_witness :
  let args := addrAA ++ word_of_byte x04 ++ [xde; xad; x00] in
  NArgs (getSNativeInfo (consts := sample_constants) ptypes.HasBase) * 32 <= length args
  /\ run (consts := sample_constants) ptypes.HasBase sample_state
       (take (NArgs (getSNativeInfo (consts := sample_constants) ptypes.HasBase) * 32) args)
     = run (consts := sample_constants) ptypes.HasBase sample_state args.
Proof.
  intros args.
  assert (Hlen : NArgs (getSNativeInfo (consts := sample_constants) ptypes.HasBase) * 32
                 <= length args) by (vm_compute; lia).
  split; [exact Hlen|].
  exact (trailing_bytes_ignored (consts := sample_constants) ptypes.HasBase sample_state
           args Hlen).
Defined.

(** SetGlobal of flag 4 against SetBase of flag 4 on the zero address. *)
Lemma setGlobal_is_setBase_at_global_witness :
  let args := word_of_byte x04 ++ word_of_byte x01 in
  length (ptypes.GlobalPermissionsAddress256 (Constants := sample_constants)) = 32
  /\ 64 <= length args
  /\ is_Some (GetAccount sample_state Zero256)
  /\ setGlobalPerm (consts := sample_constants) sample_state args
     = setBasePerm (consts := sample_constants) sample_state (Zero256 ++ args).
Proof.
  intros args.
  assert (HG : length (ptypes.GlobalPermissionsAddress256 (Constants := sample_constants)) = 32)
    by reflexivity.
  assert (Hlen : 64 <= length args) by (vm_compute; lia).
  assert (Hacc : is_Some (GetAccount sample_state Zero256))
    by (exists (blank_account Zero256); vm_compute; reflexivity).
  split; [exact HG|]. split; [exact Hlen|]. split; [exact Hacc|].
  exact (proj1 (setGlobal_is_setBase_at_global (consts := sample_constants)
                  sample_state args HG Hlen) Hacc).
Defined.


(** SetBase on [0xAA..AA] and AddRole on [0xBB..BB], in both orders. *)
Lemma calls_on_different_accounts_commute_witness :
  let args1 := addrAA ++ word_of_byte x04 ++ word_of_byte x01 in
  let args2 := addrBB ++ role_auditor in
  wf_state sample_state
  /\ addr_arg (consts := sample_constants) ptypes.SetBase args1
     <> addr_arg (consts := sample_constants) ptypes.AddRole args2
  /\ accounts (snd (run (consts := sample_constants) ptypes.AddRole
                      (snd (run (consts := sample_constants) ptypes.SetBase
                              sample_state args1)) args2))
     = accounts (snd (run (consts := sample_constants) ptypes.SetBase
                        (snd (run (consts := sample_constants) ptypes.AddRole
                                sample_state args2)) args1)).
Proof.
  intros args1 args2.
  assert (Hne : addr_arg (consts := sample_constants) ptypes.SetBase args1
                <> addr_arg (consts := sample_constants) ptypes.AddRole args2)
    by (vm_compute; discriminate).
  assert (H1 : ptypes.SetBase <> ptypes.HasBase) by discriminate.
  assert (H2 : ptypes.AddRole <> ptypes.HasBase) by discriminate.
  split; [exact sample_state_wf|]. split; [exact Hne|].
  exact (proj2 (proj2 (calls_on_different_accounts_commute (consts := sample_constants)
                         ptypes.SetBase ptypes.AddRole sample_state args1 args2
                         sample_state_wf H1 H2 Hne))).
Defined.

(** Two errors for "HasBase" whose addresses differ in the first 12 bytes
    only have the same message. *)
Lemma Error_message_content_witness :
  let e1 := {| ErrInvalidPermission.Address := addrAA;
               ErrInvalidPermission.SNative := "HasBase" |} in
  let e2 := {| ErrInvalidPermission.Address := replicate 12 x00 ++ replicate 20 xaa;
               ErrInvalidPermission.SNative := "HasBase" |} in
  length (ErrInvalidPermission.Address e1) = 32
  /\ length (ErrInvalidPermission.Address e2) = 32
  /\ ErrInvalidPermission.Address e1 <> ErrInvalidPermission.Address e2
  /\ ErrInvalidPermission_Error e1 = ErrInvalidPermission_Error e2.
Proof.
  intros e1 e2.
  split; [reflexivity|]. split; [reflexivity|]. split; [vm_compute; discriminate|].
  exact (proj2 (Error_message_content e1 e2 eq_refl eq_refl) (conj eq_refl eq_refl)).
Defined.

(** AddRole on [0xCC..CC], which has no account. *)
Lemma boolean_calls_errors_witness :
  let args := addrCC ++ role_auditor in
  fst (run (consts := sample_constants) ptypes.AddRole sample_state args)
    = Fail (Errorf_Unknown_account addrCC)
  /\ ((Errorf_Unknown_account addrCC = Errorf_Unknown_account (take 32 args)
       /\ GetAccount sample_state (take 32 args) = None)
      \/ (ptypes.AddRole = ptypes.HasBase
          /\ Errorf_Unknown_account addrCC
             = ptypes.ErrInvalidPermission (Uint64FromWord256 (take 32 (drop 32 args)))
          /\ ValidPermN (consts := sample_constants)
               (Uint64FromWord256 (take 32 (drop 32 args))) = false)).
Proof.
  intros args.
  assert (Hr : fst (run (consts := sample_constants) ptypes.AddRole sample_state args)
               = Fail (Errorf_Unknown_account addrCC)) by (vm_compute; reflexivity).
  split; [exact Hr|].
  exact (boolean_calls_errors (consts := sample_constants) ptypes.AddRole sample_state args _
           (or_intror (or_intror (or_introl eq_refl))) Hr).
Defined.

(** The buffer [0xAA..AA], flag word 4, value word 1, and one more byte. *)
Lemma decoders_split_words_witness :
  returnTwoArgs (addrAA ++ word_of_byte x04 ++ word_of_byte x01 ++ [xff])
    = Some (addrAA, word_of_byte x04)
  /\ returnThreeArgs (addrAA ++ word_of_byte x04 ++ word_of_byte x01 ++ [xff])
     = Some (addrAA, word_of_byte x04, word_of_byte x01).
Proof.
  exact (decoders_split_words addrAA (word_of_byte x04) (word_of_byte x01) [xff]
           eq_refl eq_refl eq_refl).
Defined.


(** UnsetBase on [0xCC..CC], which has no account. *)
Lemma unknown_account_error_iff_witness :
  let args := addrCC ++ word_of_byte x04 in
  NArgs (getSNativeInfo (consts := sample_constants) ptypes.UnsetBase) * 32 <= length args
  /\ GetAccount sample_state addrCC = None
  /\ fst (run (consts := sample_constants) ptypes.UnsetBase sample_state args)
     = Fail (Errorf_Unknown_account addrCC).
Proof.
  intros args.
  assert (Hlen : NArgs (getSNativeInfo (consts := sample_constants) ptypes.UnsetBase) * 32
                 <= length args) by (vm_compute; lia).
  assert (Hnone : GetAccount sample_state addrCC = None) by (vm_compute; reflexivity).
  assert (Hc : ptypes.UnsetBase <> ptypes.SetGlobal) by discriminate.
  split; [exact Hlen|]. split; [exact Hnone|].
  exact (proj2 (unknown_account_error_iff (consts := sample_constants) ptypes.UnsetBase
                  sample_state args addrCC Hlen) (conj Hc (conj eq_refl Hnone))).
Defined.
